(** * Toga: list sources, the Selection widget, Switch and the Textual Box

    A shallow embedding of the parts of the toga toolkit exercised by
    [testbed/tests/widgets/test_selection.py], [core/tests/widgets/test_switch.py]
    and [toga_textual/widgets/box.py]. *)

From Stdlib Require Import List String Ascii ZArith NArith Bool Lia PeanoNat Permutation.
Import ListNotations.
Open Scope string_scope.
Set Warnings "-register-all".

(** ** Python values *)

Module Py.

(** The raw data a toga list source is built from: scalars, sequences
    (tuples and lists), mappings (dicts) and arbitrary objects (attribute
    tables). *)
Inductive pyval : Type :=
| PNone
| PBool (b : bool)
| PInt (z : Z)
| PStr (s : string)
| PSeq (l : list pyval)
| PMap (kv : list (string * pyval))
| PObj (attrs : list (string * pyval)).

(** Python exceptions raised by the modelled code. *)
Inductive PyExc : Type :=
| ValueError
| TypeError
| IndexError.

Definition exc_eqb (e1 e2 : PyExc) : bool :=
  match e1, e2 with
  | ValueError, ValueError | TypeError, TypeError | IndexError, IndexError => true
  | _, _ => false
  end.

(** Dictionary / attribute lookup by key (first binding wins). *)
Fixpoint lookup (k : string) (kv : list (string * pyval)) : option pyval :=
  match kv with
  | [] => None
  | (k', v) :: kv' => if String.eqb k k' then Some v else lookup k kv'
  end.

(** [setattr]/[d[k] = v]: overwrite an existing binding, or add a new one. *)
Fixpoint set_assoc (k : string) (v : pyval) (kv : list (string * pyval))
  : list (string * pyval) :=
  match kv with
  | [] => [(k, v)]
  | (k', v') :: kv' =>
      if String.eqb k k' then (k', v) :: kv' else (k', v') :: set_assoc k v kv'
  end.

(** Decimal digits of a non-negative integer; [fuel] bounds the number
    of digits (the bit size is always enough). *)
Fixpoint dec_digits (fuel : nat) (n : N) (acc : string) : string :=
  match fuel with
  | O => acc
  | S f =>
      let acc' := String (ascii_of_N (48 + N.modulo n 10)) acc in
      let q := N.div n 10 in
      if N.eqb q 0 then acc' else dec_digits f q acc'
  end.

(** [str(i)] for a Python int. *)
Definition str_of_Z (z : Z) : string :=
  match z with
  | Z0 => "0"
  | Zpos p => dec_digits (Pos.size_nat p) (Npos p) ""
  | Zneg p => "-" ++ dec_digits (Pos.size_nat p) (Npos p) ""
  end.

Definition quote : string := String (ascii_of_nat 39) "".

Fixpoint join (sep : string) (l : list string) : string :=
  match l with
  | [] => ""
  | [s] => s
  | s :: l' => s ++ sep ++ join sep l'
  end.

(** [repr(v)] (used for the elements of containers) and [str(v)]. *)
Fixpoint py_repr (v : pyval) : string :=
  match v with
  | PNone => "None"
  | PBool true => "True"
  | PBool false => "False"
  | PInt z => str_of_Z z
  | PStr s => quote ++ s ++ quote
  | PSeq l => "(" ++ join ", " (map py_repr l) ++ ")"
  | PMap kv =>
      "{" ++ join ", " (map (fun '(k, x) => quote ++ k ++ quote ++ ": " ++ py_repr x) kv)
          ++ "}"
  | PObj _ => "<object>"
  end.

Definition py_str (v : pyval) : string :=
  match v with
  | PStr s => s
  | _ => py_repr v
  end.

End Py.

Import Py.

(** ** Switch (toga core widget) *)

Module Switch.

Record Switch : Type := mkSwitch {
  label : string;
  value : bool;
  enabled : bool
}.

(** Modelled from the spec: the core [toga.Switch] widget, whose source
    is not among this repository's files; the behaviour follows the spec
    (sections 4.4 and 7) and [core/tests/widgets/test_switch.py].
    [Switch.value = v]: only [True] and [False] are accepted; anything else
    raises [ValueError] (test_set_value_with_non_boolean) and leaves the
    widget untouched. The result is the outcome of the assignment together
    with the widget afterwards. *)
Definition set_value (sw : Switch) (v : pyval) : (unit + PyExc) * Switch :=
  match v with
  | PBool b => (inl tt, mkSwitch (label sw) b (enabled sw))
  | _ => (inr ValueError, sw)
  end.

(** Modelled from the spec: [Switch.toggle()], missing from this
    repository's files; per test_toggle_from_true_to_false and
    test_toggle_from_false_to_true it assigns [not self.value]. *)
Definition toggle (sw : Switch) : Switch :=
  snd (set_value sw (PBool (negb (value sw)))).

Definition is_bool (v : pyval) : bool :=
  match v with PBool _ => true | _ => false end.

End Switch.

(** ** Box (Textual backend) *)

Module TextualBox.

Record Style : Type := mkStyle { direction : string }.
Record Interface : Type := mkInterface { style : Style }.
Record NativeStyles : Type := mkNativeStyles { layout : string }.
(** The native [textual.containers.Container]: its styles, and how many
    times [refresh()] has been called on it. *)
Record Native : Type := mkNative { styles : NativeStyles; refreshes : nat }.
Record Box : Type := mkBox { interface : Interface; native : Native }.

(** [toga.style.pack.ROW] *)
Definition ROW : string := "row".

Definition set_layout (n : Native) (l : string) : Native :=
  mkNative (mkNativeStyles l) (refreshes n).

Definition refresh (n : Native) : Native :=
  mkNative (styles n) (S (refreshes n)).

(** [Box.set_bounds(self, x, y, width, height)] *)
Definition set_bounds (self : Box) (x y width height : Z) : Box :=
  let native1 :=
    if String.eqb (direction (style (interface self))) ROW
    then set_layout (native self) "horizontal"
    else set_layout (native self) "vertical" in
  mkBox (interface self) (refresh native1).

End TextualBox.

(** ** List sources and the Selection widget *)

Module Sources.

(** Modelled from the spec: [toga.sources.Row] (spec section 3), whose
    source is not among this repository's files. A row has a stable
    identity (Python object identity, here a number handed out by its
    source) and one value per attribute. *)
Record Row : Type := mkRow {
  row_id : nat;
  row_vals : list (string * pyval)
}.

(** Modelled from the spec: [toga.sources.ListSource] (spec sections 3 and
    4.2), missing from this repository's files: the declared accessors,
    the rows in display order, and the next fresh row identity. *)
Record ListSource : Type := mkListSource {
  accessors : list string;
  rows : list Row;
  next_id : nat
}.

(** *** Conversion of one raw element into a row (spec section 4.2) *)

(** Modelled from the spec: step 1, a sequence is zipped positionally with
    the accessors; missing trailing positions default to [None]. *)
Fixpoint zip_accessors (A : list string) (l : list pyval) : list (string * pyval) :=
  match A, l with
  | [], _ => []
  | a :: A', [] => (a, PNone) :: zip_accessors A' []
  | a :: A', v :: l' => (a, v) :: zip_accessors A' l'
  end.

(** [getattr(obj, a)] when the attribute exists. *)
Definition get_attr (a : string) (e : pyval) : option pyval :=
  match e with
  | PObj attrs => lookup a attrs
  | _ => None
  end.

(** Modelled from the spec: step 3, each accessor is looked up as an
    attribute; if absent, the first accessor takes the object itself and
    the others default to [None]. [i] is the accessor's position. *)
Fixpoint attrs_of_object (i : nat) (A : list string) (e : pyval)
  : list (string * pyval) :=
  match A with
  | [] => []
  | a :: A' =>
      (a, match get_attr a e with
          | Some v => v
          | None => if Nat.eqb i 0 then e else PNone
          end) :: attrs_of_object (S i) A' e
  end.

(** Modelled from the spec: the three cases of the conversion algorithm
    (sequence, mapping, anything else). Strings are scalars here, as the
    test data [["first", "second", "third"]] requires. *)
Definition create_row_vals (A : list string) (e : pyval) : list (string * pyval) :=
  match e with
  | PSeq l => zip_accessors A l
  | PMap kv =>
      map (fun a => (a, match lookup a kv with Some v => v | None => PNone end)) A
  | _ => attrs_of_object 0 A e
  end.

Definition create_row (src : ListSource) (e : pyval) : Row :=
  mkRow (next_id src) (create_row_vals (accessors src) e).

Fixpoint build_rows (A : list string) (next : nat) (data : list pyval) : list Row :=
  match data with
  | [] => []
  | e :: data' => mkRow next (create_row_vals A e) :: build_rows A (S next) data'
  end.

(** [ListSource(accessors=A, data=data)] *)
Definition new_ListSource (A : list string) (data : list pyval) : ListSource :=
  mkListSource A (build_rows A 0 data) (List.length data).

(** *** Structural events and the source's mutation operations *)

Inductive Event : Type :=
| EvInsert (index : nat) (item : Row)
| EvRemove (index : nat) (item : Row)
| EvClear
| EvChange (item : Row).

(** Python's [l.insert(i, x)] (clamped to the end), [del l[i]] and
    [l[i] = x]. *)
Definition list_insert {A : Type} (i : nat) (x : A) (l : list A) : list A :=
  firstn i l ++ x :: skipn i l.

Definition list_delete {A : Type} (i : nat) (l : list A) : list A :=
  firstn i l ++ skipn (S i) l.

Definition list_set {A : Type} (i : nat) (x : A) (l : list A) : list A :=
  if Nat.ltb i (List.length l) then firstn i l ++ x :: skipn (S i) l else l.

(** Position and row of the first row with identity [rid]. *)
Fixpoint find_row (rid : nat) (l : list Row) : option (nat * Row) :=
  match l with
  | [] => None
  | r :: l' =>
      if Nat.eqb (row_id r) rid then Some (0, r)
      else option_map (fun '(i, x) => (S i, x)) (find_row rid l')
  end.

Definition with_rows (src : ListSource) (rs : list Row) (next : nat) : ListSource :=
  mkListSource (accessors src) rs next.

(** Modelled from the spec: [ListSource.insert(index, ...)]: the row is
    created and inserted, and [insert(index, item)] is notified. *)
Definition ls_insert (src : ListSource) (index : nat) (e : pyval) : ListSource * Event :=
  let row := create_row src e in
  (with_rows src (list_insert index row (rows src)) (S (next_id src)), EvInsert index row).

(** Modelled from the spec: [ListSource.append(...)]. *)
Definition ls_append (src : ListSource) (e : pyval) : ListSource * Event :=
  ls_insert src (List.length (rows src)) e.

(** Modelled from the spec: [ListSource.remove(row)]; [None] is the
    not-found error raised for a row that is not a member. *)
Definition ls_remove (src : ListSource) (rid : nat) : option (ListSource * Event) :=
  match find_row rid (rows src) with
  | None => None
  | Some (i, r) => Some (with_rows src (list_delete i (rows src)) (next_id src), EvRemove i r)
  end.

(** Modelled from the spec: [ListSource.clear()]. *)
Definition ls_clear (src : ListSource) : ListSource * Event :=
  (with_rows src [] (next_id src), EvClear).

(** Modelled from the spec: [source[index].attr = v]: the row keeps its
    identity, its attribute is updated and [change(item)] is notified;
    [None] is the [IndexError] of [source[index]]. *)
Definition ls_setattr (src : ListSource) (index : nat) (attr : string) (v : pyval)
  : option (ListSource * Event) :=
  match nth_error (rows src) index with
  | None => None
  | Some r =>
      let r' := mkRow (row_id r) (set_assoc attr v (row_vals r)) in
      Some (with_rows src (list_set index r' (rows src)) (next_id src), EvChange r')
  end.

(** *** The Selection widget as a listener of its source (spec section 4.4) *)

(** Modelled from the spec: the binding state of [toga.Selection], missing
    from this repository's files: the bound source, the accessor used for
    titles ([widget._accessor]), the selected row by identity, the titles
    shown by the backend, and how many times [on_change] has fired. *)
Record Selection : Type := mkSelection {
  items : ListSource;
  accessor : string;
  selected : option nat;
  titles : list string;
  on_change_calls : nat
}.

Definition opt_eqb (x y : option nat) : bool :=
  match x, y with
  | Some a, Some b => Nat.eqb a b
  | None, None => true
  | _, _ => false
  end.

(** Modelled from the spec: the accessor resolver (spec section 4.3):
    [None] (or a missing attribute) shows as the empty string, anything
    else as [str(value)]. *)
Definition title_for_item (acc : string) (r : Row) : string :=
  match lookup acc (row_vals r) with
  | None | Some PNone => ""
  | Some v => py_str v
  end.

Definition with_titles (s : Selection) (t : list string) : Selection :=
  mkSelection (items s) (accessor s) (selected s) t (on_change_calls s).

Definition with_items (s : Selection) (src : ListSource) : Selection :=
  mkSelection src (accessor s) (selected s) (titles s) (on_change_calls s).

(** Set the selection and fire [on_change] once. *)
Definition select_and_fire (s : Selection) (sel : option nat) : Selection :=
  mkSelection (items s) (accessor s) sel (titles s) (S (on_change_calls s)).

(** Modelled from the spec: listener [insert(index, item)]: a title is
    inserted at [index]; if the source was empty before (it now holds just
    this row) the new row is selected and [on_change] fires. *)
Definition on_insert (s : Selection) (index : nat) (item : Row) : Selection :=
  let s1 := with_titles s (list_insert index (title_for_item (accessor s) item) (titles s)) in
  if Nat.eqb (List.length (rows (items s))) 1
  then select_and_fire s1 (Some (row_id item))
  else s1.

(** Modelled from the spec: listener [remove(index, item)]: the title is
    removed; if [item] was selected, a new row is selected (null when the
    source is now empty) and [on_change] fires. Which row: section 4.4 of
    the spec names the row now at the same position, but its end-to-end
    scenario (section 8) and test_source_changes (lines 183-191, which
    removes the selected row at position 1 and expects [source[0]]) select
    the first row; the model follows the test. *)
Definition on_remove (s : Selection) (index : nat) (item : Row) : Selection :=
  let s1 := with_titles s (list_delete index (titles s)) in
  if opt_eqb (selected s) (Some (row_id item))
  then select_and_fire s1 (option_map row_id (hd_error (rows (items s))))
  else s1.

(** Modelled from the spec: listener [clear()]. *)
Definition on_clear (s : Selection) : Selection :=
  let s1 := with_titles s [] in
  match selected s with
  | Some _ => select_and_fire s1 None
  | None => s1
  end.

(** Modelled from the spec: listener [change(item)]: the row's title is
    recomputed in place; selection and [on_change] are left alone. *)
Definition on_change (s : Selection) (item : Row) : Selection :=
  match find_row (row_id item) (rows (items s)) with
  | Some (i, _) => with_titles s (list_set i (title_for_item (accessor s) item) (titles s))
  | None => s
  end.

(** [source.notify(event, ...)] delivered to the widget, after the source
    has been updated. *)
Definition notify (s : Selection) (ev : Event) : Selection :=
  match ev with
  | EvInsert i r => on_insert s i r
  | EvRemove i r => on_remove s i r
  | EvClear => on_clear s
  | EvChange r => on_change s r
  end.

(** Mutations application code performs on the bound source. *)
Inductive Mutation : Type :=
| Append (e : pyval)
| Insert (index : nat) (e : pyval)
| Remove (rid : nat)
| SetAttr (index : nat) (attr : string) (v : pyval)
| Clear.

(** The source is mutated in place (the widget holds the same object) and
    the resulting event is dispatched to the widget; [None] is an error
    raised by the source, with nothing changed. *)
Definition apply_mutation (m : Mutation) (s : Selection) : option Selection :=
  let src := items s in
  let res :=
    match m with
    | Append e => Some (ls_append src e)
    | Insert i e => Some (ls_insert src i e)
    | Remove rid => ls_remove src rid
    | SetAttr i a v => ls_setattr src i a v
    | Clear => Some (ls_clear src)
    end in
  match res with
  | None => None
  | Some (src', ev) => Some (notify (with_items s src') ev)
  end.

(** What is assigned to [Selection.items]. *)
Inductive ItemsArg : Type :=
| RawData (data : list pyval)
| FromSource (src : ListSource).

(** Modelled from the spec: the [Selection.items] setter: a ListSource is
    adopted by reference, raw data becomes a new ListSource over the
    widget's accessor; the titles are rebuilt, the first row (if any) is
    selected and [on_change] fires unconditionally. *)
Definition set_items (s : Selection) (arg : ItemsArg) : Selection :=
  let src :=
    match arg with
    | RawData d => new_ListSource [accessor s] d
    | FromSource src => src
    end in
  mkSelection src (accessor s) (option_map row_id (hd_error (rows src)))
    (map (title_for_item (accessor s)) (rows src)) (S (on_change_calls s)).

(** Modelled from the spec: the backend reports that the user picked the
    row at display position [index]; [on_change] fires only when the
    selected identity changes. *)
Definition select_index (s : Selection) (index : nat) : Selection :=
  match nth_error (rows (items s)) index with
  | None => s
  | Some r =>
      if opt_eqb (selected s) (Some (row_id r)) then s
      else select_and_fire s (Some (row_id r))
  end.

(** A widget before any items are assigned ([widget._accessor] given). *)
Definition empty_selection (acc : string) : Selection :=
  mkSelection (new_ListSource [acc] []) acc None [] 0.

(** The widget states a program can reach: creation, assignments to
    [items], mutations of the bound source, and user picks reported by the
    backend. *)
Inductive reachable : Selection -> Prop :=
| reach_init (acc : string) : reachable (empty_selection acc)
| reach_items (s : Selection) (arg : ItemsArg) :
    reachable s -> reachable (set_items s arg)
| reach_mutation (s s' : Selection) (m : Mutation) :
    reachable s -> apply_mutation m s = Some s' -> reachable s'
| reach_select (s : Selection) (i : nat) :
    reachable s -> reachable (select_index s i).

(** Spec section 3: a non-null selection is a row of the bound source. *)
Definition sel_in_source (s : Selection) : Prop :=
  forall R, selected s = Some R -> In R (map row_id (rows (items s))).

End Sources.

(** ** The data of test_source_changes *)

Module Scenario.
Import Sources.

Definition unwrap (o : option Selection) (dflt : Selection) : Selection :=
  match o with Some s => s | None => dflt end.

Definition entry (name : string) (v : Z) : pyval :=
  PMap [("name", PStr name); ("value", PInt v)].

(** [ListSource(accessors=["name", "value"], data=[...])] *)
Definition source : ListSource :=
  new_ListSource ["name"; "value"]
    [entry "first" 111; entry "second" 222; entry "third" 333].

(** [widget._accessor = "name"; widget.items = source] *)
Definition st0 : Selection := set_items (empty_selection "name") (FromSource source).
(** [source.append(name="new 1", value=999)] *)
Definition st1 : Selection := unwrap (apply_mutation (Append (entry "new 1" 999)) st0) st0.
(** [source.insert(0, name="new 2", value=888)] *)
Definition st2 : Selection := unwrap (apply_mutation (Insert 0 (entry "new 2" 888)) st1) st1.
(** [source[1].name = "updated"] *)
Definition st3 : Selection :=
  unwrap (apply_mutation (SetAttr 1 "name" (PStr "updated")) st2) st2.
(** [source[0].name = "revised"] *)
Definition st4 : Selection :=
  unwrap (apply_mutation (SetAttr 0 "name" (PStr "revised")) st3) st3.
(** [source.remove(selected_item)]: the selected row has identity 0. *)
Definition st5 : Selection := unwrap (apply_mutation (Remove 0) st4) st4.
(** [source.remove(source[2])] *)
Definition st6 : Selection := unwrap (apply_mutation (Remove 2) st5) st5.
(** [source.clear()] *)
Definition st7 : Selection := unwrap (apply_mutation Clear st6) st6.
(** [source.insert(0, name="new 3", value=777)] *)
Definition st8 : Selection := unwrap (apply_mutation (Insert 0 (entry "new 3" 777)) st7) st7.

(** A switch as built in [SwitchTests.setUp]. *)
Definition test_switch : Switch.Switch := Switch.mkSwitch "Test Label" true true.

End Scenario.

(** ** Reading and setting the selection, and well-formed sources *)

Module Binding.
Import Sources.

(** Modelled from the spec: a ListSource as its own operations leave it
    (spec section 3): no two rows share an identity, and every identity
    is below the next one it will hand out. *)
Definition wf_source (src : ListSource) : Prop :=
  NoDup (map row_id (rows src)) /\ Forall (fun id => id < next_id src) (map row_id (rows src)).

(** What reading [Selection.value] evaluates to: a row, a plain Python
    value, or an [AttributeError]. *)
Inductive GetResult : Type :=
| GRow (r : Row)
| GVal (v : pyval)
| GAttributeError.

(** Modelled from the spec: the [Selection.value] getter (spec section 6,
    checked against test_item_titles). Nothing selected reads [None]. With
    no accessor given (the widget's [_accessor] is [None]; its items are
    then read through the accessor ["value"]) it reads the selected item's
    [value] attribute, [widget.value == "first"] and [== 111] at lines
    71-78; with an accessor given it reads the row itself
    ([widget.value.name == "first"], lines 94-95). *)
Definition get_value (accessor_given : bool) (s : Selection) : GetResult :=
  match selected s with
  | None => GVal PNone
  | Some R =>
      match find_row R (rows (items s)) with
      | None => GVal PNone
      | Some (_, r) =>
          if accessor_given then GRow r
          else match lookup "value" (row_vals r) with
               | Some x => GVal x
               | None => GAttributeError
               end
      end
  end.

Definition as_int (v : pyval) : Z :=
  match v with
  | PBool true => 1%Z
  | PInt z => z
  | _ => 0%Z
  end.

(** [==] on two sequences: same length, items equal pairwise. *)
Fixpoint seq_eqb (eqf : pyval -> pyval -> bool) (l1 l2 : list pyval) : bool :=
  match l1, l2 with
  | [], [] => true
  | x :: l1', y :: l2' => eqf x y && seq_eqb eqf l1' l2'
  | _, _ => false
  end.

(** Every key of [m1] (its first binding, as a dict lookup reads it) is
    bound in [m2] to an equal value; [seen] holds the keys already met. *)
Fixpoint dict_sub (eqf : pyval -> pyval -> bool) (m2 : list (string * pyval))
    (seen : list string) (m1 : list (string * pyval)) : bool :=
  match m1 with
  | [] => true
  | (k, v) :: m1' =>
      (existsb (String.eqb k) seen ||
       match lookup k m2 with Some w => eqf v w | None => false end) &&
      dict_sub eqf m2 (k :: seen) m1'
  end.

(** Every key of [m2] is bound in [m1]. *)
Definition dict_keys_in (m1 m2 : list (string * pyval)) : bool :=
  forallb (fun kv => match lookup (fst kv) m1 with Some _ => true | None => false end) m2.

(** Python [==] on the modelled values: [None] equals only [None];
    integers and booleans compare by number ([True == 1]); strings by
    content; sequences item by item; dicts by their key sets and the
    values at each key, in any order. The model has one sequence
    constructor for lists and tuples, and objects carry no identity, so
    two sequences, and two objects, compare by their contents. *)
Fixpoint py_eqb (x y : pyval) {struct x} : bool :=
  match x, y with
  | PNone, PNone => true
  | PStr a, PStr b => String.eqb a b
  | (PInt _ | PBool _), (PInt _ | PBool _) => Z.eqb (as_int x) (as_int y)
  | PSeq l1, PSeq l2 => seq_eqb py_eqb l1 l2
  | PMap m1, PMap m2 => dict_sub py_eqb m2 [] m1 && dict_keys_in m1 m2
  | PObj m1, PObj m2 => dict_sub py_eqb m2 [] m1 && dict_keys_in m1 m2
  | _, _ => false
  end.

(** The row's value for accessor [acc] equals the key [v]:
    [getattr(row, acc) == v], a missing attribute never matching. *)
Definition row_matches (acc : string) (v : pyval) (r : Row) : bool :=
  match lookup acc (row_vals r) with
  | Some x => py_eqb x v
  | None => false
  end.

(** [ListSource.find]: the first row whose accessor value is [v]. *)
Fixpoint find_by_key (acc : string) (v : pyval) (l : list Row) : option Row :=
  match l with
  | [] => None
  | r :: l' => if row_matches acc v r then Some r else find_by_key acc v l'
  end.

(** The right-hand side of [widget.value = ...]: a plain value or a row. *)
Inductive SelArg : Type :=
| ValueKey (v : pyval)
| ValueRow (r : Row).

(** Modelled from the spec: the [Selection.value] setter (spec section 6).
    With no accessor given, the value is a natural key and the first row
    whose [value] attribute equals it is chosen ([items.find(value=v)]);
    with an accessor given, the value is a row, found in the source by
    identity ([items.index(row)]). The chosen row is selected and
    [on_change] fires, also when it was already selected
    (test_selection_change, lines 108-113); anything not in the source
    raises [ValueError] (spec section 4.4, error conditions). *)
Definition set_selected_value (accessor_given : bool) (s : Selection) (a : SelArg)
  : Selection + PyExc :=
  let found :=
    match accessor_given, a with
    | false, ValueKey v => find_by_key "value" v (rows (items s))
    | true, ValueRow r => option_map snd (find_row (row_id r) (rows (items s)))
    | _, _ => None
    end in
  match found with
  | Some r => inl (select_and_fire s (Some (row_id r)))
  | None => inr ValueError
  end.

(** The widget states a program reaches when every ListSource it assigns
    was built and changed by ListSource's own operations. *)
Inductive program_state : Selection -> Prop :=
| ps_init (acc : string) : program_state (empty_selection acc)
| ps_raw (s : Selection) (d : list pyval) :
    program_state s -> program_state (set_items s (RawData d))
| ps_source (s : Selection) (src : ListSource) :
    program_state s -> wf_source src -> program_state (set_items s (FromSource src))
| ps_mutation (s s' : Selection) (m : Mutation) :
    program_state s -> apply_mutation m s = Some s' -> program_state s'
| ps_select (s : Selection) (i : nat) :
    program_state s -> program_state (select_index s i)
| ps_set_value (s s' : Selection) (given : bool) (a : SelArg) :
    program_state s -> set_selected_value given s a = inl s' -> program_state s'.

End Binding.

(** * Properties *)

Module BoxFacts.
Import TextualBox.

(** Claim C10: [Box.set_bounds] on the Textual backend lays the native
    container out horizontally exactly when the style direction is [ROW]
    and vertically for every other direction, refreshes the native widget
    once, and does not depend on [x], [y], [width] or [height]. *)
Theorem set_bounds_layout_follows_direction :
  forall (b : Box) (x y width height : Z),
    let b' := set_bounds b x y width height in
    (layout (styles (native b')) = "horizontal" <-> direction (style (interface b)) = ROW) /\
    (direction (style (interface b)) <> ROW -> layout (styles (native b')) = "vertical") /\
    refreshes (native b') = S (refreshes (native b)) /\
    interface b' = interface b /\
    (forall x' y' width' height', set_bounds b x' y' width' height' = b').
Proof.
  intros b x y width height b'. subst b'. unfold set_bounds.
  destruct (String.eqb_spec (direction (style (interface b))) ROW) as [Hrow | Hrow];
    simpl; repeat split; try reflexivity; try tauto; discriminate.
Qed.

(** [set_bounds] recomputes the layout from the current style direction
    alone: the container's previous layout has no influence, so a second
    call leaves the layout as the first one set it; every call refreshes
    the container once more. *)
Theorem set_bounds_recomputes_layout :
  forall (b : Box) (n0 : Native) (x y width height x' y' width' height' : Z),
    styles (native (set_bounds (mkBox (interface b) n0) x y width height)) =
      styles (native (set_bounds b x' y' width' height')) /\
    styles (native (set_bounds (set_bounds b x y width height) x' y' width' height')) =
      styles (native (set_bounds b x y width height)) /\
    refreshes (native (set_bounds (set_bounds b x y width height) x' y' width' height')) =
      S (S (refreshes (native b))).
Proof.
  intros. unfold set_bounds. simpl.
  destruct (String.eqb (direction (style (interface b))) ROW); simpl;
    repeat split; reflexivity.
Qed.

End BoxFacts.

Module SwitchFacts.
Import Switch Scenario.

(** Claim C9: after [switch.value = v], [toggle()] sets the value to
    [not v]; toggling twice gives back the value it started from. *)
Theorem toggle_after_set_negates :
  forall (sw : Switch) (v : bool),
    value (toggle (snd (set_value sw (PBool v)))) = negb v /\
    value (toggle (toggle (snd (set_value sw (PBool v))))) = v /\
    value (toggle (toggle sw)) = value sw.
Proof.
  intros sw v. unfold toggle; simpl.
  rewrite !negb_involutive. repeat split.
Qed.

(** Claim C8: assigning a non-boolean value to the boolean-valued
    [Switch.value] fails at once with the type-contract error of spec
    section 7, which [Switch] raises as Python's [ValueError]
    (test_set_value_with_non_boolean), and leaves the switch exactly as
    it was. *)
Theorem set_value_non_boolean_value_error :
  forall (sw : Switch) (v : pyval),
    is_bool v = false -> set_value sw v = (inr ValueError, sw).
Proof.
  intros sw v Hv. destruct v; try reflexivity; discriminate.
Qed.

Lemma set_value_non_boolean_value_error_witness :
  is_bool (PStr "on") = false /\
  set_value test_switch (PStr "on") = (inr ValueError, test_switch).
Proof.
  split; [reflexivity | apply set_value_non_boolean_value_error; reflexivity].
Defined.

End SwitchFacts.

Module ConversionFacts.
Import Sources.

Lemma zip_accessors_fst : forall A l, map fst (zip_accessors A l) = A.
Proof.
  induction A as [| a A IH]; intros [| v l]; simpl; try reflexivity; f_equal; apply IH.
Qed.

Lemma zip_accessors_nth : forall A l i a,
  nth_error A i = Some a -> nth_error (zip_accessors A l) i = Some (a, nth i l PNone).
Proof.
  induction A as [| a' A IH]; intros l i a H.
  - destruct i; discriminate.
  - destruct i as [| i]; destruct l as [| v l]; simpl in *.
    + injection H as <-. reflexivity.
    + injection H as <-. reflexivity.
    + rewrite (IH [] i a H). destruct i; reflexivity.
    + apply IH; exact H.
Qed.

Lemma attrs_of_object_fst : forall A j e, map fst (attrs_of_object j A e) = A.
Proof.
  induction A as [| a A IH]; intros j e; simpl; [reflexivity | f_equal; apply IH].
Qed.

Lemma attrs_of_object_nth : forall A j e i a,
  nth_error A i = Some a ->
  nth_error (attrs_of_object j A e) i =
    Some (a, match get_attr a e with
             | Some v => v
             | None => if Nat.eqb (j + i) 0 then e else PNone
             end).
Proof.
  induction A as [| a' A IH]; intros j e i a H.
  - destruct i; discriminate.
  - destruct i as [| i]; simpl in *.
    + injection H as <-. rewrite Nat.add_0_r. reflexivity.
    + rewrite (IH (S j) e i a H). do 3 f_equal. rewrite Nat.add_succ_r. reflexivity.
Qed.

Lemma create_row_vals_fst : forall A e, map fst (create_row_vals A e) = A.
Proof.
  intros A e. destruct e; simpl;
    try apply attrs_of_object_fst; try apply zip_accessors_fst.
  rewrite map_map. simpl. apply map_id.
Qed.

Lemma build_rows_fst : forall A next data r,
  In r (build_rows A next data) -> map fst (row_vals r) = A.
Proof.
  intros A next data. revert next.
  induction data as [| e data IH]; intros next r Hin; simpl in Hin; [contradiction |].
  destruct Hin as [<- | Hin]; [apply create_row_vals_fst | eapply IH; exact Hin].
Qed.

(** Claim C4: converting a raw element into a row never fails and yields
    exactly the declared accessors, in order: a sequence is zipped with the
    accessors (missing positions are [None]); a mapping is looked up by key
    (missing keys are [None]); an object's accessors are its attributes,
    and a bare scalar is the value of the first accessor ([None] for the
    others). Every row of a source built from raw data has exactly the
    declared accessors. *)
Theorem create_row_total_and_shaped :
  forall (A : list string) (e : pyval),
    map fst (create_row_vals A e) = A /\
    (forall i a, nth_error A i = Some a ->
       nth_error (create_row_vals A e) i =
         Some (a, match e with
                  | PSeq l => nth i l PNone
                  | PMap kv => match lookup a kv with Some v => v | None => PNone end
                  | PObj attrs =>
                      match lookup a attrs with
                      | Some v => v
                      | None => if Nat.eqb i 0 then e else PNone
                      end
                  | _ => if Nat.eqb i 0 then e else PNone
                  end)) /\
    (forall data r, In r (rows (new_ListSource A data)) -> map fst (row_vals r) = A).
Proof.
  intros A e. split; [apply create_row_vals_fst | split].
  - intros i a H. destruct e as [| b | z | s | l | kv | attrs]; simpl;
      try (rewrite (attrs_of_object_nth A 0 _ i a H); reflexivity).
    + apply zip_accessors_nth; exact H.
    + rewrite nth_error_map, H. reflexivity.
  - intros data r Hin. eapply build_rows_fst. exact Hin.
Qed.

End ConversionFacts.

Module SelectionFacts.
Import Sources Scenario.

Lemma length_list_insert : forall (A : Type) i (x : A) l,
  List.length (list_insert i x l) = S (List.length l).
Proof.
  intros A i x l. unfold list_insert.
  pose proof (f_equal (@List.length A) (firstn_skipn i l)) as H.
  rewrite length_app in H. rewrite length_app. simpl. lia.
Qed.

Lemma length_list_delete : forall (A : Type) i (l : list A),
  i < List.length l -> List.length (list_delete i l) = pred (List.length l).
Proof.
  intros A i l Hi. unfold list_delete.
  rewrite length_app, length_firstn, length_skipn. lia.
Qed.

Lemma find_row_spec : forall rid l i r,
  find_row rid l = Some (i, r) -> nth_error l i = Some r /\ row_id r = rid.
Proof.
  intros rid l. induction l as [| r0 l IH]; intros i r H; simpl in H; [discriminate |].
  destruct (Nat.eqb_spec (row_id r0) rid) as [E | E].
  - injection H as <- <-. split; [reflexivity | exact E].
  - destruct (find_row rid l) as [[j x] |] eqn:F; simpl in H; [| discriminate].
    injection H as <- <-. simpl. apply IH. reflexivity.
Qed.

Lemma find_row_member : forall rid l,
  In rid (map row_id l) -> exists i r, find_row rid l = Some (i, r).
Proof.
  intros rid l. induction l as [| r0 l IH]; intros H; simpl in *; [contradiction |].
  destruct (Nat.eqb_spec (row_id r0) rid) as [E | E]; [eauto |].
  destruct H as [H | H]; [contradiction |].
  destruct (IH H) as [i [r F]]. rewrite F. simpl. eauto.
Qed.

Lemma nth_error_lt : forall (A : Type) (l : list A) i x,
  nth_error l i = Some x -> i < List.length l.
Proof.
  intros A l i x H. apply nth_error_Some. rewrite H. discriminate.
Qed.

Lemma opt_eqb_refl : forall o, opt_eqb o o = true.
Proof. intros [n |]; simpl; [apply Nat.eqb_refl | reflexivity]. Qed.

Lemma opt_eqb_true : forall o o', opt_eqb o o' = true -> o = o'.
Proof.
  intros [n |] [m |]; simpl; intros H; try discriminate; try reflexivity.
  apply Nat.eqb_eq in H. subst. reflexivity.
Qed.

(** Mutations that leave a given row in the source. *)
Definition keeps_row (R : nat) (m : Mutation) : bool :=
  match m with
  | Remove rid => negb (Nat.eqb rid R)
  | Clear => false
  | _ => true
  end.

(** Claim C1: while row [R] is selected and in the source, appending a
    row, inserting one at any index, removing another row, or setting an
    attribute of any row (R's own label included) keeps [R] selected and
    does not fire [on_change]. *)
Theorem selection_survives_unrelated_mutation :
  forall (s s' : Selection) (R : nat) (m : Mutation),
    selected s = Some R ->
    In R (map row_id (rows (items s))) ->
    keeps_row R m = true ->
    apply_mutation m s = Some s' ->
    selected s' = Some R /\ on_change_calls s' = on_change_calls s.
Proof.
  intros s s' R m Hsel Hin Hkeep Happ.
  assert (Hne : List.length (rows (items s)) <> 0).
  { destruct (rows (items s)); simpl in *; [contradiction | discriminate]. }
  destruct m as [e | i e | rid | i a v |]; simpl in Hkeep, Happ.
  - injection Happ as <-. unfold on_insert. simpl.
    rewrite length_list_insert.
    destruct (Nat.eqb_spec (S (List.length (rows (items s)))) 1); [lia |].
    simpl. split; [exact Hsel | reflexivity].
  - injection Happ as <-. unfold on_insert. simpl.
    rewrite length_list_insert.
    destruct (Nat.eqb_spec (S (List.length (rows (items s)))) 1); [lia |].
    simpl. split; [exact Hsel | reflexivity].
  - unfold apply_mutation, ls_remove in Happ.
    destruct (find_row rid (rows (items s))) as [[i r] |] eqn:F;
      simpl in Happ; [| discriminate].
    injection Happ as <-. apply find_row_spec in F as [_ Hid].
    unfold on_remove. simpl. rewrite Hsel, Hid. simpl.
    apply negb_true_iff in Hkeep. rewrite Nat.eqb_sym, Hkeep. simpl.
    split; [exact Hsel | reflexivity].
  - unfold apply_mutation, ls_setattr in Happ.
    destruct (nth_error (rows (items s)) i) as [r |]; simpl in Happ; [| discriminate].
    injection Happ as <-. unfold on_change. simpl.
    destruct (find_row _ _) as [[j x] |]; simpl; split; (exact Hsel || reflexivity).
  - discriminate.
Qed.

Lemma selection_survives_unrelated_mutation_witness :
  selected st1 = Some 0 /\ on_change_calls st1 = on_change_calls st0.
Proof.
  apply (selection_survives_unrelated_mutation st0 st1 0 (Append (entry "new 1" 999)));
    vm_compute; auto.
Defined.

(** Claim C2 (as stated it fails): in test_source_changes the selected row
    (identity 0, title "updated") sits at position 1; once it is removed,
    the row now at position 1 is "second" (identity 1), yet the selection
    moves to "revised" (identity 4), the row at position 0. *)
Lemma remove_selected_not_same_position :
  apply_mutation (Remove 0) st4 = Some st5 /\
  selected st4 = Some 0 /\
  nth_error (map row_id (rows (items st4))) 1 = Some 0 /\
  selected st5 = Some 4 /\
  option_map row_id (nth_error (rows (items st5)) 1) = Some 1 /\
  titles st5 = ["revised"; "second"; "third"; "new 1"].
Proof.
  vm_compute. repeat split.
Qed.

(** Claim C2 (amended): removing the selected row [R] from the bound
    source removes one row, moves the selection to the first remaining row
    (null when none remain) and fires [on_change] exactly once. *)
Theorem remove_selected_selects_first :
  forall (s : Selection) (R : nat),
    selected s = Some R ->
    In R (map row_id (rows (items s))) ->
    exists s',
      apply_mutation (Remove R) s = Some s' /\
      List.length (rows (items s')) = pred (List.length (rows (items s))) /\
      selected s' = option_map row_id (hd_error (rows (items s'))) /\
      (rows (items s') = [] -> selected s' = None) /\
      on_change_calls s' = S (on_change_calls s).
Proof.
  intros s R Hsel Hin.
  destruct (find_row_member R _ Hin) as [i [r F]].
  pose proof (find_row_spec _ _ _ _ F) as [Hnth Hid].
  unfold apply_mutation, ls_remove. rewrite F. simpl.
  unfold on_remove. simpl. rewrite Hsel, Hid. simpl. rewrite Nat.eqb_refl.
  eexists. split; [reflexivity |]. simpl.
  split; [apply length_list_delete; eapply nth_error_lt; exact Hnth |].
  split; [reflexivity |].
  split; [intros E; rewrite E; reflexivity | reflexivity].
Qed.

Lemma remove_selected_selects_first_witness :
  selected st4 = Some 0 /\ In 0 (map row_id (rows (items st4))) /\
  exists s',
    apply_mutation (Remove 0) st4 = Some s' /\
    List.length (rows (items s')) = pred (List.length (rows (items st4))) /\
    selected s' = option_map row_id (hd_error (rows (items s'))) /\
    (rows (items s') = [] -> selected s' = None) /\
    on_change_calls s' = S (on_change_calls st4).
Proof.
  split; [vm_compute; reflexivity |].
  split; [vm_compute; auto |].
  apply remove_selected_selects_first; vm_compute; auto.
Defined.

(** Claim C3: assigning [items] (raw data or a ListSource, empty or not)
    rebuilds every title from the new source, selects its first row (null
    if it is empty), fires [on_change] exactly once whatever was selected
    before, and adopts a given ListSource by reference. *)
Theorem set_items_rebuilds_and_fires :
  forall (s : Selection) (arg : ItemsArg),
    let s' := set_items s arg in
    items s' = match arg with
               | RawData d => new_ListSource [accessor s] d
               | FromSource src => src
               end /\
    titles s' = map (title_for_item (accessor s)) (rows (items s')) /\
    selected s' = option_map row_id (hd_error (rows (items s'))) /\
    (rows (items s') = [] -> selected s' = None) /\
    on_change_calls s' = S (on_change_calls s).
Proof.
  intros s arg s'. subst s'. unfold set_items. simpl.
  repeat split. intros E. rewrite E. reflexivity.
Qed.

(** Claim C5: clearing the bound source removes every title; a non-null
    selection becomes null with exactly one [on_change], and an already
    null selection fires nothing. *)
Theorem clear_resets_selection :
  forall (s : Selection),
    exists s',
      apply_mutation Clear s = Some s' /\
      rows (items s') = [] /\
      titles s' = [] /\
      selected s' = None /\
      on_change_calls s' =
        on_change_calls s + match selected s with Some _ => 1 | None => 0 end.
Proof.
  intros s.
  unfold apply_mutation, ls_clear, notify, on_clear, with_titles, with_items,
    select_and_fire, with_rows. simpl.
  destruct (selected s) as [R |]; eexists; repeat split; simpl; lia.
Qed.

(** Claim C6: inserting a row into an empty source selects that new row
    and fires [on_change] once; inserting into a non-empty source leaves
    the selection and [on_change] alone. *)
Theorem insert_selects_only_into_empty :
  forall (s : Selection) (i : nat) (e : pyval),
    exists s',
      apply_mutation (Insert i e) s = Some s' /\
      rows (items s') = list_insert i (create_row (items s) e) (rows (items s)) /\
      selected s' = match rows (items s) with
                    | [] => Some (row_id (create_row (items s) e))
                    | _ => selected s
                    end /\
      on_change_calls s' = on_change_calls s + match rows (items s) with
                                               | [] => 1
                                               | _ => 0
                                               end.
Proof.
  intros s i e.
  unfold apply_mutation, ls_insert, notify, on_insert, with_titles, with_items,
    select_and_fire, with_rows. simpl.
  rewrite length_list_insert.
  destruct (rows (items s)) as [| r rs]; simpl; eexists; repeat split; simpl; lia.
Qed.

(** Claim C7: when the backend reports position [i] holding row [r], [r]
    becomes selected; [on_change] fires only if [r] was not already the
    selection (then nothing changes at all), and the same report repeated
    changes nothing and fires nothing. *)
Theorem select_index_idempotent :
  forall (s : Selection) (i : nat) (r : Row),
    nth_error (rows (items s)) i = Some r ->
    let s1 := select_index s i in
    selected s1 = Some (row_id r) /\
    on_change_calls s1 =
      on_change_calls s + (if opt_eqb (selected s) (Some (row_id r)) then 0 else 1) /\
    (selected s = Some (row_id r) -> s1 = s) /\
    select_index s1 i = s1.
Proof.
  intros s i r Hr s1. subst s1. unfold select_index. rewrite Hr.
  destruct (opt_eqb (selected s) (Some (row_id r))) eqn:E.
  - apply opt_eqb_true in E. rewrite Hr, E, opt_eqb_refl.
    repeat split; lia.
  - simpl. rewrite Hr. simpl. rewrite Nat.eqb_refl.
    repeat split; [lia | intros H; rewrite H, opt_eqb_refl in E; discriminate].
Qed.

Lemma select_index_idempotent_witness :
  nth_error (rows (items st0)) 1 = Some (mkRow 1 [("name", PStr "second"); ("value", PInt 222)]) /\
  selected (select_index st0 1) = Some 1 /\
  on_change_calls (select_index st0 1) = S (on_change_calls st0) /\
  select_index (select_index st0 1) 1 = select_index st0 1.
Proof.
  destruct (select_index_idempotent st0 1 (mkRow 1 [("name", PStr "second"); ("value", PInt 222)]))
    as [H1 [H2 [_ H4]]]; [vm_compute; reflexivity |].
  split; [vm_compute; reflexivity |].
  split; [exact H1 | split; [rewrite H2; vm_compute; reflexivity | exact H4]].
Defined.

End SelectionFacts.

Module InvariantFacts.
Import Sources.

Lemma in_ids_list_insert : forall i x l R,
  In R (map row_id l) -> In R (map row_id (list_insert i x l)).
Proof.
  intros i x l R H. rewrite <- (firstn_skipn i l) in H.
  unfold list_insert. rewrite map_app, in_app_iff in *. simpl. tauto.
Qed.

Lemma new_in_list_insert : forall i x l, In (row_id x) (map row_id (list_insert i x l)).
Proof.
  intros i x l. unfold list_insert. rewrite map_app, in_app_iff. simpl. tauto.
Qed.

Lemma list_delete_split : forall (A : Type) (l1 l2 : list A) (a : A),
  list_delete (List.length l1) (l1 ++ a :: l2)%list = (l1 ++ l2)%list.
Proof.
  intros A l1 l2 a. unfold list_delete.
  induction l1 as [| b l1 IH]; simpl; [reflexivity |]. f_equal. exact IH.
Qed.

Lemma list_set_split : forall (A : Type) (l1 l2 : list A) (a x : A),
  list_set (List.length l1) x (l1 ++ a :: l2)%list = (l1 ++ x :: l2)%list.
Proof.
  intros A l1 l2 a x. unfold list_set.
  rewrite length_app. simpl.
  replace (Nat.ltb (List.length l1) (List.length l1 + S (List.length l2))) with true
    by (symmetry; apply Nat.ltb_lt; lia).
  induction l1 as [| b l1 IH]; simpl; [reflexivity |]. f_equal. exact IH.
Qed.

Lemma in_ids_list_delete : forall i l r R,
  nth_error l i = Some r -> row_id r <> R ->
  In R (map row_id l) -> In R (map row_id (list_delete i l)).
Proof.
  intros i l r R Hr Hne H.
  destruct (nth_error_split l i Hr) as [l1 [l2 [-> <-]]].
  rewrite list_delete_split. rewrite map_app, in_app_iff in *. simpl in H.
  destruct H as [H | [H | H]]; tauto.
Qed.

Lemma ids_list_set : forall i l r x,
  nth_error l i = Some r -> row_id x = row_id r ->
  map row_id (list_set i x l) = map row_id l.
Proof.
  intros i l r x Hr Hid.
  destruct (nth_error_split l i Hr) as [l1 [l2 [-> <-]]].
  rewrite list_set_split, !map_app. simpl. rewrite Hid. reflexivity.
Qed.

Lemma hd_in_ids : forall l R,
  option_map row_id (hd_error l) = Some R -> In R (map row_id l).
Proof.
  intros [| r l] R H; simpl in H; [discriminate |]. injection H as <-. simpl. tauto.
Qed.

Lemma sel_in_source_set_items : forall s arg, sel_in_source (set_items s arg).
Proof.
  intros s arg R H. apply hd_in_ids. exact H.
Qed.

Lemma sel_in_source_select_index : forall s i,
  sel_in_source s -> sel_in_source (select_index s i).
Proof.
  intros s i Hinv R H. unfold select_index in *.
  destruct (nth_error (rows (items s)) i) as [r |] eqn:Hr; [| exact (Hinv R H)].
  destruct (opt_eqb (selected s) (Some (row_id r))); [exact (Hinv R H) |].
  simpl in H. injection H as <-. simpl.
  apply nth_error_In in Hr. apply in_map. exact Hr.
Qed.

Lemma sel_in_source_mutation : forall s s' m,
  sel_in_source s -> apply_mutation m s = Some s' -> sel_in_source s'.
Proof.
  intros s s' m Hinv Happ.
  destruct m as [e | i e | rid | i a v |]; unfold apply_mutation in Happ.
  - injection Happ as <-. intros R H. unfold notify, on_insert in *.
    cbn [ls_append ls_insert create_row items selected select_and_fire with_titles
         with_items with_rows rows next_id] in *.
    destruct (Nat.eqb _ 1); cbn [selected select_and_fire with_titles items] in H.
    + injection H as <-.
      exact (new_in_list_insert (List.length (rows (items s))) (create_row (items s) e) _).
    + exact (in_ids_list_insert (List.length (rows (items s))) (create_row (items s) e)
               _ R (Hinv R H)).
  - injection Happ as <-. intros R H. unfold notify, on_insert in *.
    cbn [ls_append ls_insert create_row items selected select_and_fire with_titles
         with_items with_rows rows next_id] in *.
    destruct (Nat.eqb _ 1); cbn [selected select_and_fire with_titles items] in H.
    + injection H as <-. exact (new_in_list_insert i (create_row (items s) e) _).
    + exact (in_ids_list_insert i (create_row (items s) e) _ R (Hinv R H)).
  - unfold ls_remove in Happ.
    destruct (find_row rid (rows (items s))) as [[i r] |] eqn:F;
      simpl in Happ; [| discriminate].
    injection Happ as <-. apply SelectionFacts.find_row_spec in F as [Hr Hid].
    intros R H. unfold notify, on_remove in *.
    cbn [items selected select_and_fire with_titles with_items with_rows rows] in *.
    destruct (opt_eqb (selected s) (Some (row_id r))) eqn:E;
      cbn [selected select_and_fire with_titles items] in H.
    + apply hd_in_ids. exact H.
    + apply (in_ids_list_delete i _ r); [exact Hr | | apply Hinv; exact H].
      intros Heq. change (selected s = Some R) in H.
      rewrite Heq, H in E. simpl in E. rewrite Nat.eqb_refl in E. discriminate.
  - unfold ls_setattr in Happ.
    destruct (nth_error (rows (items s)) i) as [r |] eqn:Hr; simpl in Happ;
      [| discriminate].
    injection Happ as <-. intros R H. unfold notify, on_change in *.
    cbn [items selected with_titles with_items with_rows rows row_id] in *.
    assert (Hids : map row_id (list_set i (mkRow (row_id r) (set_assoc a v (row_vals r)))
                                  (rows (items s))) = map row_id (rows (items s)))
      by (apply (ids_list_set i _ r); [exact Hr | reflexivity]).
    destruct (find_row _ _) as [[j x] |];
      unfold with_titles, with_items, with_rows in *; cbn [selected items rows] in *;
      rewrite Hids; apply Hinv; exact H.
  - cbn in Happ. injection Happ as <-. intros R H.
    unfold on_clear, with_titles, select_and_fire, with_items in H.
    cbn [selected] in H. destruct (selected s); cbn [selected] in H; discriminate.
Qed.

(** Every reachable widget satisfies [sel_in_source]: a non-null selection
    always names a row of the bound source. *)
Theorem reachable_sel_in_source : forall s, reachable s -> sel_in_source s.
Proof.
  intros s Hr. induction Hr as [acc | s arg _ _ | s s' m _ IH Happ | s i _ IH].
  - intros R H. discriminate.
  - apply sel_in_source_set_items.
  - eapply sel_in_source_mutation; eassumption.
  - apply sel_in_source_select_index. exact IH.
Qed.

End InvariantFacts.

Module ScenarioChecks.
Import Sources Scenario.

(** The assertions of test_source_changes, replayed on the model. *)
Example source_changes_initial :
  titles st0 = ["first"; "second"; "third"] /\ selected st0 = Some 0 /\
  on_change_calls st0 = 1.
Proof. vm_compute. repeat split. Qed.

Example source_changes_append :
  titles st1 = ["first"; "second"; "third"; "new 1"] /\ selected st1 = Some 0 /\
  on_change_calls st1 = 1.
Proof. vm_compute. repeat split. Qed.

Example source_changes_insert :
  titles st2 = ["new 2"; "first"; "second"; "third"; "new 1"] /\ selected st2 = Some 0 /\
  on_change_calls st2 = 1.
Proof. vm_compute. repeat split. Qed.

Example source_changes_update :
  titles st4 = ["revised"; "updated"; "second"; "third"; "new 1"] /\
  selected st4 = Some 0 /\ on_change_calls st4 = 1.
Proof. vm_compute. repeat split. Qed.

Example source_changes_remove_selected :
  titles st5 = ["revised"; "second"; "third"; "new 1"] /\
  selected st5 = option_map row_id (hd_error (rows (items st5))) /\
  on_change_calls st5 = 2.
Proof. vm_compute. repeat split. Qed.

Example source_changes_remove_other :
  titles st6 = ["revised"; "second"; "new 1"] /\ selected st6 = selected st5 /\
  on_change_calls st6 = 2.
Proof. vm_compute. repeat split. Qed.

Example source_changes_clear :
  titles st7 = [] /\ selected st7 = None /\ on_change_calls st7 = 3.
Proof. vm_compute. repeat split. Qed.

Example source_changes_insert_into_empty :
  titles st8 = ["new 3"] /\
  selected st8 = option_map row_id (hd_error (rows (items st8))) /\
  on_change_calls st8 = 4.
Proof. vm_compute. repeat split. Qed.

(** test_item_titles: integers, tuples and dicts with a "value" key. *)
Example item_titles_ints :
  titles (set_items (empty_selection "value") (RawData [PInt 111; PInt 222; PInt 333]))
  = ["111"; "222"; "333"].
Proof. vm_compute. reflexivity. Qed.

Example item_titles_tuples :
  titles (set_items (empty_selection "value")
            (RawData [PSeq [PStr "first"; PInt 111]; PSeq [PStr "second"; PInt 222]]))
  = ["first"; "second"].
Proof. vm_compute. reflexivity. Qed.

Example item_titles_dicts :
  titles (set_items (empty_selection "value")
            (RawData [entry "first" 111; entry "second" 222; entry "third" 333]))
  = ["111"; "222"; "333"].
Proof. vm_compute. reflexivity. Qed.

End ScenarioChecks.

Module BindingFacts.
Import Sources Binding InvariantFacts.

Lemma map_list_insert : forall (A B : Type) (f : A -> B) i x l,
  map f (list_insert i x l) = list_insert i (f x) (map f l).
Proof.
  intros. unfold list_insert. rewrite map_app. simpl.
  rewrite firstn_map, skipn_map. reflexivity.
Qed.

Lemma map_list_delete : forall (A B : Type) (f : A -> B) i l,
  map f (list_delete i l) = list_delete i (map f l).
Proof.
  intros. unfold list_delete. rewrite map_app, firstn_map, skipn_map. reflexivity.
Qed.

Lemma map_list_set : forall (A B : Type) (f : A -> B) i x l,
  map f (list_set i x l) = list_set i (f x) (map f l).
Proof.
  intros. unfold list_set. rewrite length_map.
  destruct (Nat.ltb i (List.length l)); [| reflexivity].
  rewrite map_app, firstn_map, skipn_map. reflexivity.
Qed.

Lemma nth_error_app_other : forall (A : Type) (l1 l2 : list A) x y j,
  j <> List.length l1 ->
  nth_error (l1 ++ x :: l2)%list j = nth_error (l1 ++ y :: l2)%list j.
Proof.
  intros A l1 l2 x y. induction l1 as [| a l1 IH]; intros j Hj; simpl in *.
  - destruct j; [lia | reflexivity].
  - destruct j; [reflexivity |]. simpl. apply IH. lia.
Qed.

Lemma lookup_set_assoc_same : forall a v kv, lookup a (set_assoc a v kv) = Some v.
Proof.
  intros a v kv. induction kv as [| [k x] kv IH]; simpl.
  - rewrite String.eqb_refl. reflexivity.
  - destruct (String.eqb_spec a k) as [-> | Hne]; simpl.
    + rewrite String.eqb_refl. reflexivity.
    + apply String.eqb_neq in Hne. rewrite Hne. exact IH.
Qed.

Lemma lookup_set_assoc_other : forall a b v kv,
  b <> a -> lookup b (set_assoc a v kv) = lookup b kv.
Proof.
  intros a b v kv Hba. apply String.eqb_neq in Hba.
  induction kv as [| [k x] kv IH]; simpl.
  - rewrite Hba. reflexivity.
  - destruct (String.eqb_spec a k) as [-> | Hne]; simpl.
    + rewrite Hba. reflexivity.
    + rewrite IH. reflexivity.
Qed.

Lemma new_ListSource_wf : forall A d, wf_source (new_ListSource A d).
Proof.
  intros A d. unfold wf_source, new_ListSource. simpl.
  assert (Hids : forall next, map row_id (build_rows A next d) = seq next (List.length d)).
  { induction d as [| e d IH]; intros next; simpl; [reflexivity | f_equal; apply IH]. }
  rewrite Hids. split; [apply seq_NoDup |].
  apply Forall_forall. intros x Hx. apply in_seq in Hx. lia.
Qed.

Lemma list_insert_perm : forall (A : Type) i (x : A) l,
  Permutation (list_insert i x l) (x :: l).
Proof.
  intros A i x l. unfold list_insert.
  rewrite <- (firstn_skipn i l) at 3.
  symmetry. apply Permutation_middle.
Qed.

Lemma ls_insert_wf : forall src i e,
  wf_source src ->
  ~ In (row_id (create_row src e)) (map row_id (rows src)) /\
  wf_source (fst (ls_insert src i e)).
Proof.
  intros src i e [Hnd Hlt].
  assert (Hfresh : ~ In (next_id src) (map row_id (rows src))).
  { intros Hin. rewrite Forall_forall in Hlt. specialize (Hlt _ Hin). lia. }
  split; [exact Hfresh |].
  unfold wf_source, ls_insert, with_rows. simpl.
  assert (Hp : Permutation (map row_id (list_insert i (create_row src e) (rows src)))
                           (next_id src :: map row_id (rows src))).
  { rewrite map_list_insert. apply list_insert_perm. }
  split.
  - eapply Permutation_NoDup; [symmetry; exact Hp |]. constructor; assumption.
  - apply Forall_forall. intros x Hx.
    apply (Permutation_in _ Hp) in Hx. destruct Hx as [<- | Hx]; [lia |].
    rewrite Forall_forall in Hlt. specialize (Hlt _ Hx). lia.
Qed.

Lemma ls_remove_wf : forall src rid src' ev,
  wf_source src -> ls_remove src rid = Some (src', ev) -> wf_source src'.
Proof.
  intros src rid src' ev [Hnd Hlt] H. unfold ls_remove in H.
  destruct (find_row rid (rows src)) as [[i r] |] eqn:F; [| discriminate].
  injection H as <- _. apply SelectionFacts.find_row_spec in F as [Hr _].
  destruct (nth_error_split _ i Hr) as [l1 [l2 [Hl Hlen]]].
  unfold wf_source, with_rows. simpl. rewrite Hl, <- Hlen, list_delete_split.
  rewrite Hl, !map_app in *. simpl in *. split.
  - eapply NoDup_remove_1. exact Hnd.
  - eapply incl_Forall; [| exact Hlt].
    intros x. rewrite !in_app_iff. simpl. tauto.
Qed.

Lemma ls_setattr_wf : forall src i a v src' ev,
  wf_source src -> ls_setattr src i a v = Some (src', ev) -> wf_source src'.
Proof.
  intros src i a v src' ev Hwf H. unfold ls_setattr in H.
  destruct (nth_error (rows src) i) as [r |] eqn:Hr; [| discriminate].
  injection H as <- _. unfold wf_source, with_rows. simpl.
  rewrite (ids_list_set i _ r); [exact Hwf | exact Hr | reflexivity].
Qed.

(** The ListSource operations keep a source well formed: a source built
    from raw data has distinct identities below its counter; [insert] and
    [append] give the new row an identity no present row has; [remove],
    attribute updates and [clear] keep the identities distinct. *)
Theorem ListSource_ops_keep_wf :
  (forall A d, wf_source (new_ListSource A d)) /\
  (forall src, wf_source src ->
     (forall i e, ~ In (row_id (create_row src e)) (map row_id (rows src)) /\
                  wf_source (fst (ls_insert src i e))) /\
     (forall e, wf_source (fst (ls_append src e))) /\
     (forall rid src' ev, ls_remove src rid = Some (src', ev) -> wf_source src') /\
     (forall i a v src' ev, ls_setattr src i a v = Some (src', ev) -> wf_source src') /\
     wf_source (fst (ls_clear src))).
Proof.
  split; [apply new_ListSource_wf |].
  intros src Hwf. split; [intros i e; apply ls_insert_wf; exact Hwf |].
  split; [intros e; apply ls_insert_wf; exact Hwf |].
  split; [intros; eapply ls_remove_wf; eassumption |].
  split; [intros; eapply ls_setattr_wf; eassumption |].
  unfold wf_source. simpl. split; constructor.
Qed.

(** Setting an attribute of [source[i]] updates that row in place: the
    row keeps its identity and position, reads back the new value, keeps
    its other attributes, the other rows are untouched, and the selection
    and [on_change] are left alone. Out of range, [source[i]] raises and
    nothing changes. *)
Theorem setattr_updates_row_in_place :
  forall (s : Selection) (i : nat) (a : string) (v : pyval),
    match nth_error (rows (items s)) i with
    | None => apply_mutation (SetAttr i a v) s = None
    | Some r =>
        exists s' r',
          apply_mutation (SetAttr i a v) s = Some s' /\
          nth_error (rows (items s')) i = Some r' /\
          row_id r' = row_id r /\
          lookup a (row_vals r') = Some v /\
          (forall b, b <> a -> lookup b (row_vals r') = lookup b (row_vals r)) /\
          (forall j, j <> i -> nth_error (rows (items s')) j = nth_error (rows (items s)) j) /\
          selected s' = selected s /\
          on_change_calls s' = on_change_calls s
    end.
Proof.
  intros s i a v. unfold apply_mutation, ls_setattr.
  destruct (nth_error (rows (items s)) i) as [r |] eqn:Hr; [| reflexivity].
  destruct (nth_error_split _ i Hr) as [l1 [l2 [Hl Hlen]]].
  set (r' := mkRow (row_id r) (set_assoc a v (row_vals r))).
  eexists. exists r'. split; [reflexivity |].
  unfold notify, on_change, with_titles, with_items, with_rows.
  destruct (find_row _ _) as [[j x] |]; cbn [rows items selected on_change_calls];
    rewrite Hl, <- Hlen, list_set_split;
    (split; [rewrite nth_error_app2, Nat.sub_diag by lia; reflexivity |]);
    (split; [reflexivity |]);
    (split; [apply lookup_set_assoc_same |]);
    (split; [intros b Hb; apply lookup_set_assoc_other; exact Hb |]);
    (split; [intros j' Hj; apply nth_error_app_other; lia |]);
    split; reflexivity.
Qed.

Lemma find_row_nodup : forall l i r,
  NoDup (map row_id l) -> nth_error l i = Some r -> find_row (row_id r) l = Some (i, r).
Proof.
  induction l as [| r0 l IH]; intros i r Hnd Hr; [destruct i; discriminate |].
  simpl in Hnd. inversion Hnd as [| x xs Hnotin Hnd']; subst.
  destruct i as [| i]; simpl in Hr.
  - injection Hr as <-. simpl. rewrite Nat.eqb_refl. reflexivity.
  - simpl. destruct (Nat.eqb_spec (row_id r0) (row_id r)) as [E | E].
    + exfalso. apply Hnotin. rewrite E. apply in_map. eapply nth_error_In. exact Hr.
    + rewrite (IH i r Hnd' Hr). reflexivity.
Qed.

Lemma nth_error_list_set_same : forall (A : Type) (l : list A) i x y,
  nth_error l i = Some y -> nth_error (list_set i x l) i = Some x.
Proof.
  intros A l i x y Hy. destruct (nth_error_split _ i Hy) as [l1 [l2 [-> <-]]].
  rewrite list_set_split, nth_error_app2, Nat.sub_diag by lia. reflexivity.
Qed.

(** The invariant of program states: a well-formed source, titles that
    mirror it, and a selection that is one of its rows. *)
Definition binding_inv (s : Selection) : Prop :=
  wf_source (items s) /\
  titles s = map (title_for_item (accessor s)) (rows (items s)) /\
  sel_in_source s.

Lemma binding_inv_mutation : forall s s' m,
  binding_inv s -> apply_mutation m s = Some s' -> binding_inv s'.
Proof.
  intros s s' m [Hwf [Ht Hsel]] Happ.
  split; [| split; [| eapply sel_in_source_mutation; eassumption]].
  - destruct m as [e | i e | rid | i a v |]; unfold apply_mutation in Happ.
    + injection Happ as <-. unfold notify, on_insert.
      destruct (Nat.eqb _ 1); apply (ls_insert_wf _ _ e Hwf).
    + injection Happ as <-. unfold notify, on_insert.
      destruct (Nat.eqb _ 1); apply (ls_insert_wf _ _ e Hwf).
    + destruct (ls_remove (items s) rid) as [[src' ev] |] eqn:E; [| discriminate].
      injection Happ as <-. pose proof (ls_remove_wf _ _ _ _ Hwf E) as Hwf'.
      destruct ev; simpl; unfold on_insert, on_remove, on_clear, on_change;
        repeat match goal with |- context [if ?c then _ else _] => destruct c end;
        repeat match goal with |- context [match ?c with _ => _ end] => destruct c end;
        exact Hwf'.
    + destruct (ls_setattr (items s) i a v) as [[src' ev] |] eqn:E; [| discriminate].
      injection Happ as <-. pose proof (ls_setattr_wf _ _ _ _ _ _ Hwf E) as Hwf'.
      destruct ev; simpl; unfold on_insert, on_remove, on_clear, on_change;
        repeat match goal with |- context [if ?c then _ else _] => destruct c end;
        repeat match goal with |- context [match ?c with _ => _ end] => destruct c end;
        exact Hwf'.
    + injection Happ as <-. unfold notify, on_clear.
      destruct (selected _); unfold wf_source; simpl; split; constructor.
  - destruct m as [e | i e | rid | i a v |]; unfold apply_mutation in Happ.
    + injection Happ as <-. unfold notify, on_insert.
      destruct (Nat.eqb _ 1); simpl; rewrite map_list_insert, Ht; reflexivity.
    + injection Happ as <-. unfold notify, on_insert.
      destruct (Nat.eqb _ 1); simpl; rewrite map_list_insert, Ht; reflexivity.
    + unfold ls_remove in Happ.
      destruct (find_row rid (rows (items s))) as [[i r] |]; simpl in Happ; [| discriminate].
      injection Happ as <-. unfold on_remove.
      destruct (opt_eqb _ _); simpl; rewrite map_list_delete, Ht; reflexivity.
    + unfold ls_setattr in Happ.
      destruct (nth_error (rows (items s)) i) as [r |] eqn:Hr; simpl in Happ; [| discriminate].
      injection Happ as <-.
      set (r' := mkRow (row_id r) (set_assoc a v (row_vals r))).
      assert (Hnd : NoDup (map row_id (list_set i r' (rows (items s))))).
      { rewrite (ids_list_set i _ r); [apply Hwf | exact Hr | reflexivity]. }
      unfold on_change. simpl.
      pose proof (find_row_nodup _ i r' Hnd (nth_error_list_set_same _ _ i r' r Hr)) as E.
      simpl in E. rewrite E. simpl. rewrite map_list_set, Ht. reflexivity.
    + injection Happ as <-. unfold notify, on_clear.
      destruct (selected _); reflexivity.
Qed.

Lemma find_by_key_some : forall acc v l r,
  find_by_key acc v l = Some r ->
  exists i, nth_error l i = Some r /\ row_matches acc v r = true /\
    (forall j r0, j < i -> nth_error l j = Some r0 -> row_matches acc v r0 = false).
Proof.
  intros acc v l. induction l as [| r1 l IH]; intros r H; simpl in H; [discriminate |].
  destruct (row_matches acc v r1) eqn:M.
  - injection H as <-. exists 0. split; [reflexivity | split; [exact M | intros; lia]].
  - destruct (IH r H) as [i [Hi [Hm Hbefore]]]. exists (S i).
    split; [exact Hi | split; [exact Hm |]].
    intros [| j] r0 Hj Hr0; simpl in Hr0.
    + injection Hr0 as <-. exact M.
    + apply (Hbefore j); [lia | exact Hr0].
Qed.






Lemma set_selected_value_found : forall given s a s',
  set_selected_value given s a = inl s' ->
  exists r, In r (rows (items s)) /\ s' = select_and_fire s (Some (row_id r)).
Proof.
  intros given s a s' H. unfold set_selected_value in H. cbv beta iota zeta in H.
  destruct given; destruct a as [v | r0]; try discriminate.
  - destruct (find_row (row_id r0) (rows (items s))) as [[i r] |] eqn:F;
      simpl in H; [| discriminate].
    injection H as <-. exists r. split; [| reflexivity].
    destruct (SelectionFacts.find_row_spec _ _ _ _ F) as [Hr _].
    eapply nth_error_In; exact Hr.
  - destruct (find_by_key "value" v (rows (items s))) as [r |] eqn:F; [| discriminate].
    injection H as <-. exists r. split; [| reflexivity].
    destruct (find_by_key_some _ _ _ _ F) as [i [Hi _]].
    eapply nth_error_In; exact Hi.
Qed.

Lemma program_state_inv : forall s, program_state s -> binding_inv s.
Proof.
  intros s Hps. induction Hps as [acc | s d _ _ | s src _ _ Hsrc | s s' m _ IH Happ
                                   | s i _ IH | s s' given a _ IH Hset].
  - split; [apply new_ListSource_wf | split; [reflexivity |]].
    intros R H. discriminate.
  - split; [apply new_ListSource_wf | split; [reflexivity | apply sel_in_source_set_items]].
  - split; [exact Hsrc | split; [reflexivity | apply sel_in_source_set_items]].
  - eapply binding_inv_mutation; eassumption.
  - destruct IH as [Hwf [Ht Hsel]].
    split; [| split; [| apply sel_in_source_select_index; exact Hsel]];
      unfold select_index; destruct (nth_error _ i) as [r |];
      try destruct (opt_eqb _ _); assumption.
  - destruct IH as [Hwf [Ht Hsel]].
    destruct (set_selected_value_found _ _ _ _ Hset) as [r [Hin ->]].
    split; [exact Hwf | split; [exact Ht |]].
    intros R H. simpl in H. injection H as <-. apply in_map. exact Hin.
Qed.

(** In every program state the titles shown by the backend are, in
    order, the titles of the bound source's rows, and the source keeps
    distinct row identities. *)
Theorem titles_mirror_source :
  forall s, program_state s ->
    titles s = map (title_for_item (accessor s)) (rows (items s)) /\
    NoDup (map row_id (rows (items s))).
Proof.
  intros s Hps. destruct (program_state_inv s Hps) as [[Hnd _] [Ht _]].
  split; assumption.
Qed.

Lemma titles_mirror_source_witness :
  titles Scenario.st1 = map (title_for_item (accessor Scenario.st1)) (rows (items Scenario.st1)) /\
  NoDup (map row_id (rows (items Scenario.st1))).
Proof.
  apply titles_mirror_source.
  apply (ps_mutation Scenario.st0 _ (Append (Scenario.entry "new 1" 999))).
  - apply ps_source; [apply ps_init | apply new_ListSource_wf].
  - reflexivity.
Defined.

(** In every program state, reading [Selection.value] gives [None] when
    nothing is selected, and always on an empty source; when a row is
    selected it gives that row, a row of the bound source, if an accessor
    was given, and the row's [value] attribute otherwise. With an accessor
    given the read is [None] exactly when nothing is selected. *)
Theorem get_value_is_selected_row :
  forall s, program_state s ->
    (forall R, selected s = Some R ->
       exists r, In r (rows (items s)) /\ row_id r = R /\
         get_value true s = GRow r /\
         get_value false s = match lookup "value" (row_vals r) with
                             | Some x => GVal x
                             | None => GAttributeError
                             end) /\
    (selected s = None -> get_value true s = GVal PNone /\ get_value false s = GVal PNone) /\
    (get_value true s = GVal PNone <-> selected s = None) /\
    (rows (items s) = [] -> selected s = None).
Proof.
  intros s Hps. destruct (program_state_inv s Hps) as [_ [_ Hsel]].
  assert (Hsome : forall R, selected s = Some R ->
       exists r, In r (rows (items s)) /\ row_id r = R /\
         get_value true s = GRow r /\
         get_value false s = match lookup "value" (row_vals r) with
                             | Some x => GVal x
                             | None => GAttributeError
                             end).
  { intros R H. destruct (SelectionFacts.find_row_member R _ (Hsel R H)) as [i [r F]].
    pose proof (SelectionFacts.find_row_spec _ _ _ _ F) as [Hr Hid].
    exists r. unfold get_value. rewrite H, F.
    split; [eapply nth_error_In; exact Hr | split; [exact Hid | split; reflexivity]]. }
  split; [exact Hsome |]. split; [| split].
  - intros H. unfold get_value. rewrite H. split; reflexivity.
  - split; intros H.
    + destruct (selected s) as [R |] eqn:E; [| reflexivity].
      destruct (Hsome R eq_refl) as [r [_ [_ [Hg _]]]]. rewrite Hg in H. discriminate.
    + unfold get_value. rewrite H. reflexivity.
  - intros Hempty. destruct (selected s) as [R |] eqn:E; [| reflexivity].
    specialize (Hsel R E). rewrite Hempty in Hsel. contradiction.
Qed.

Lemma get_value_is_selected_row_witness :
  get_value false
    (set_items (empty_selection "value")
       (RawData [PMap [("name", PStr "first"); ("value", PInt 111)];
                 PMap [("name", PStr "second"); ("value", PInt 222)]])) = GVal (PInt 111).
Proof.
  destruct (get_value_is_selected_row _
              (ps_raw _ [PMap [("name", PStr "first"); ("value", PInt 111)];
                         PMap [("name", PStr "second"); ("value", PInt 222)]]
                 (ps_init "value"))) as [Hsome _].
  destruct (Hsome 0) as [r [Hin [Hid [_ Hg]]]]; [vm_compute; reflexivity |].
  rewrite Hg. vm_compute in Hin.
  destruct Hin as [<- | [<- | []]]; vm_compute in Hid; try discriminate; reflexivity.
Defined.




(** test_selection_change: setting the value to the already selected
    "first" fires [on_change]; the user then picks "second". *)
Example selection_change_replay :
  let w := set_items (empty_selection "value")
             (RawData [PStr "first"; PStr "second"; PStr "third"]) in
  match set_selected_value false w (ValueKey (PStr "first")) with
  | inl w1 =>
      selected w1 = selected w /\ on_change_calls w1 = S (on_change_calls w) /\
      get_value false w1 = GVal (PStr "first") /\
      selected (select_index w1 1) = Some 1 /\
      on_change_calls (select_index w1 1) = S (on_change_calls w1) /\
      get_value false (select_index w1 1) = GVal (PStr "second")
  | inr _ => False
  end.
Proof. vm_compute. repeat split. Qed.

End BindingFacts.
